(** * GroqChat: the conversation session and the response parser of chat.py

    A shallow embedding of [src/chat.py]: the [GroqChat] class
    ([extract_think_content], [create_reasoning_prompt], [chat]), the display
    helper [format_thinking] and the command dispatch of [main], followed by
    the properties of the session and of the parser.  The two libraries the
    program talks to are collaborators: the remote completion call is a
    function that raises or returns, and the console is known by the one
    thing that changes the control flow, the [MarkupError] it raises when it
    is given a text whose markup it rejects.

    Python [str] values are sequences of Unicode code points; they are
    modelled as lists of code points so that [str.strip] can use Python's own
    whitespace table. *)

From Stdlib Require Import Ascii String.
From Stdlib Require Import List NArith ZArith QArith Bool Lia Arith.
From Stdlib Require Import DecimalString.
Import ListNotations.

Local Open Scope list_scope.
Local Open Scope nat_scope.

(* ================================================================= *)
(** ** Text *)

Module Text.

(** A code point. *)
Definition char := N.

(** A Python [str]. *)
Definition str := list char.

(** A literal of the source, written as a Rocq string (ASCII only). *)
Fixpoint u (s : string) : str :=
  match s with
  | EmptyString => []
  | String a s' => N_of_ascii a :: u s'
  end.

(** The line feed written [\n] in the source's literals. *)
Definition LF : char := 10%N.

(** [a == b]. *)
Fixpoint eqb (a b : str) : bool :=
  match a, b with
  | [], [] => true
  | x :: a', y :: b' => (x =? y)%N && eqb a' b'
  | _, _ => false
  end.

(** [ch.isspace()] for one code point, as [str.strip()] with no argument
    uses it: the ASCII table (tab to carriage return, the four separators
    0x1C-0x1F, space) and the Unicode white space beyond it. *)
Definition isspace (c : char) : bool :=
  ((9 <=? c) && (c <=? 13) || (28 <=? c) && (c <=? 32)
   || (c =? 133) || (c =? 160) || (c =? 5760)
   || (8192 <=? c) && (c <=? 8202)
   || (c =? 8232) || (c =? 8233) || (c =? 8239) || (c =? 8287)
   || (c =? 12288))%N.

(** [s.lstrip()]. *)
Fixpoint lstrip (s : str) : str :=
  match s with
  | [] => []
  | c :: t => if isspace c then lstrip t else s
  end.

(** [s.rstrip()]: the same scan from the right end. *)
Definition rstrip (s : str) : str := rev (lstrip (rev s)).

(** [s.strip()]. *)
Definition strip (s : str) : str := rstrip (lstrip s).

(** [ch.lower()] on the code points whose lower case is an ASCII letter:
    [A]-[Z] and the Kelvin sign.  [main] only compares lowered input with
    ASCII literals, and every other code point lowers to something outside
    ASCII, so leaving those unchanged decides the same comparisons. *)
Definition lower_char (c : char) : char :=
  if ((65 <=? c) && (c <=? 90))%N then (c + 32)%N
  else if (c =? 8490)%N then 107%N
  else c.

(** [s.lower()], for comparison with ASCII literals. *)
Definition lower (s : str) : str := map lower_char s.

(** [sep.join(parts)]. *)
Fixpoint join (sep : str) (parts : list str) : str :=
  match parts with
  | [] => []
  | [p] => p
  | p :: rest => p ++ sep ++ join sep rest
  end.

(** If [text] starts with [prefix], what follows it. *)
Fixpoint drop_prefix (prefix text : str) : option str :=
  match prefix with
  | [] => Some text
  | a :: prefix' =>
      match text with
      | [] => None
      | b :: text' => if (a =? b)%N then drop_prefix prefix' text' else None
      end
  end.

(** [pat in text]. *)
Fixpoint contains (pat text : str) : bool :=
  match drop_prefix pat text with
  | Some _ => true
  | None => match text with
            | [] => false
            | _ :: text' => contains pat text'
            end
  end.

End Text.

Import Text.

(* ================================================================= *)
(** ** The regular expression [<think>(.*?)</think>] with [re.DOTALL] *)

Module Re.

Definition think_open : str := u "<think>".
Definition think_close : str := u "</think>".

(** The lazy group [(.*?)] followed by the literal [close]: the shortest run
    of arbitrary characters (with DOTALL the dot matches line feeds too)
    after which [close] follows.  Gives the group and the text after
    [close]. *)
Fixpoint lazy_until (close text : str) : option (str * str) :=
  match drop_prefix close text with
  | Some rest => Some ([], rest)
  | None =>
      match text with
      | [] => None
      | c :: text' =>
          match lazy_until close text' with
          | Some (group, rest) => Some (c :: group, rest)
          | None => None
          end
      end
  end.

(** The pattern anchored at the start of [text]: group 1 and the text after
    the match. *)
Definition match_at (text : str) : option (str * str) :=
  match drop_prefix think_open text with
  | Some body => lazy_until think_close body
  | None => None
  end.

(** [pattern.search(text)]: the leftmost match, as (text before the match,
    group 1, text after the match). *)
Fixpoint search (text : str) : option (str * str * str) :=
  match match_at text with
  | Some (group, rest) => Some ([], group, rest)
  | None =>
      match text with
      | [] => None
      | c :: text' =>
          match search text' with
          | Some (before, group, rest) => Some (c :: before, group, rest)
          | None => None
          end
      end
  end.

(** The successive non-overlapping matches, left to right, each with the
    unmatched text that precedes it, and the unmatched text after the last
    one.  Every match is at least fifteen characters long, so the scan
    resumes on a strictly shorter text; [fuel] bounds the number of
    matches. *)
Fixpoint finditer (fuel : nat) (text : str) : list (str * str) * str :=
  match fuel with
  | O => ([], text)
  | S fuel' =>
      match search text with
      | None => ([], text)
      | Some (before, group, rest) =>
          let (spans, tail) := finditer fuel' rest in
          ((before, group) :: spans, tail)
      end
  end.

(** [re.findall(think_pattern, text, re.DOTALL)]: with one group in the
    pattern, the list of the groups. *)
Definition findall (text : str) : list str :=
  map snd (fst (finditer (length text) text)).

(** [re.sub(think_pattern, repl, text, flags=re.DOTALL)] for a replacement
    without backslashes. *)
Definition sub (repl text : str) : str :=
  let (spans, tail) := finditer (length text) text in
  concat (map (fun span => fst span ++ repl) spans) ++ tail.

End Re.

Import Re.

(* ================================================================= *)
(** ** The markup of the console (library rich, [markup.py]) *)

Module Rich.

(** A tag of console markup: [Tag(name, parameters)]. *)
Record Tag := { tag_name : str; tag_parameters : option str }.

(** What the renderer asks of the rest of the library: [Style.normalize]
    on the name of a tag, and, for a tag [@name=parameters] that is closed,
    the message of the [MarkupError] raised when the parameters of the
    handler are not a literal ([RE_HANDLER] and [literal_eval]). *)
Record Styles := {
  normalize : str -> str;
  handler_error : str -> option str
}.

(** [Style.normalize] on a name that is no style definition:
    [style.strip().lower()]; and handlers whose parameters are literals. *)
Definition plain_styles : Styles := {|
  normalize := fun style => lower (strip style);
  handler_error := fun _ => None
|}.

(** [tag.markup]. *)
Definition tag_markup (tag : Tag) : str :=
  match tag_parameters tag with
  | None => u "[" ++ tag_name tag ++ u "]"
  | Some parameters => u "[" ++ tag_name tag ++ u "=" ++ parameters ++ u "]"
  end.

(** The class [[a-z#/@]] that starts the text of a tag. *)
Definition tag_start (c : char) : bool :=
  ((97 <=? c) && (c <=? 122) || (c =? 35) || (c =? 47) || (c =? 64))%N.

(** [[^[]*?]]: the shortest run without an opening bracket up to a
    closing bracket.  Gives the run and the text after the bracket. *)
Fixpoint tag_body (text : str) : option (str * str) :=
  match text with
  | [] => None
  | c :: text' =>
      if (c =? 93)%N then Some ([], text')
      else if (c =? 91)%N then None
      else match tag_body text' with
           | Some (body, rest) => Some (c :: body, rest)
           | None => None
           end
  end.

(** The run of backslashes that a text starts with (the group [escapes]
    of [RE_TAGS]), and what follows it. *)
Fixpoint backslashes (text : str) : nat * str :=
  match text with
  | c :: text' =>
      if (c =? 92)%N
      then let (n, rest) := backslashes text' in (S n, rest)
      else (0, text)
  | [] => (0, text)
  end.

(** [RE_TAGS] anchored at the start of [text]: the number of backslashes
    of the group [escapes], the group [tag_text], and the text after the
    match. *)
Definition match_tag (text : str) : option (nat * str * str) :=
  let (escapes, after) := backslashes text in
  match after with
  | bracket :: c :: after' =>
      if (bracket =? 91)%N && tag_start c then
        match tag_body after' with
        | Some (body, rest) => Some (escapes, c :: body, rest)
        | None => None
        end
      else None
  | _ => None
  end.

(** The leftmost match of [RE_TAGS]: the number of characters before it,
    and the match. *)
Fixpoint search_tag (text : str) : option (nat * (nat * str * str)) :=
  match match_tag text with
  | Some m => Some (0, m)
  | None =>
      match text with
      | [] => None
      | _ :: text' =>
          match search_tag text' with
          | Some (skipped, m) => Some (S skipped, m)
          | None => None
          end
      end
  end.

(** [tag_text.partition("=")] made into a tag. *)
Fixpoint partition_equals (tag_text : str) : str * option str :=
  match tag_text with
  | [] => ([], None)
  | c :: tag_text' =>
      if (c =? 61)%N then ([], Some tag_text')
      else let (text, parameters) := partition_equals tag_text' in
           (c :: text, parameters)
  end.

Definition make_tag (tag_text : str) : Tag :=
  let (text, parameters) := partition_equals tag_text in
  {| tag_name := text; tag_parameters := parameters |}.

(** The tags that [_parse] yields, each with its position; the plain text
    between them plays no part in what follows.  A match with an odd
    number of backslashes is an escaped tag, which is text; with an even
    number the tag stands after them.  [fuel] bounds the number of matches,
    each of which is at least three characters long. *)
Fixpoint parse_from (fuel : nat) (position : nat) (markup : str)
  : list (nat * Tag) :=
  match fuel with
  | O => []
  | S fuel' =>
      match search_tag markup with
      | None => []
      | Some (skipped, (escapes, tag_text, rest)) =>
          let start := position + skipped in
          let end_ := position + (List.length markup - List.length rest) in
          (if Nat.odd escapes then []
           else [(start + 2 * Nat.div escapes 2, make_tag tag_text)])
          ++ parse_from fuel' end_ rest
      end
  end.

Definition parse (markup : str) : list (nat * Tag) :=
  parse_from (List.length markup) 0 markup.

(** [pop_style]: the topmost open tag of that name, taken off the stack
    (the head of the list is the top). *)
Fixpoint pop_style (style_name : str) (style_stack : list Tag)
  : option (Tag * list Tag) :=
  match style_stack with
  | [] => None
  | tag :: below =>
      if Text.eqb (tag_name tag) style_name then Some (tag, below)
      else match pop_style style_name below with
           | Some (found, below') => Some (found, tag :: below')
           | None => None
           end
  end.

(** [str(position)]. *)
Definition decimal (position : nat) : str :=
  u (NilZero.string_of_uint (Nat.to_uint position)).

(** What happens once a closing tag has found its open tag: only the
    handler of an [@] tag with parameters can raise. *)
Definition close_error (styles : Styles) (open_tag : Tag) : option str :=
  match drop_prefix (u "@") (tag_name open_tag) with
  | Some _ =>
      match tag_parameters open_tag with
      | Some (_ :: _ as parameters) => handler_error styles parameters
      | _ => None
      end
  | None => None
  end.

(** The loop of [render] over the tags, with the stack of open tags: the
    message of the [MarkupError] it raises, if any. *)
Fixpoint render_tags (styles : Styles) (tags : list (nat * Tag))
  (style_stack : list Tag) : option str :=
  match tags with
  | [] => None
  | (position, tag) :: tags' =>
      match drop_prefix (u "/") (tag_name tag) with
      | Some name =>
          let style_name := strip name in
          match style_name with
          | _ :: _ =>
              match pop_style (normalize styles style_name) style_stack with
              | None =>
                  Some (u "closing tag '" ++ tag_markup tag ++
                        u "' at position " ++ decimal position ++
                        u " doesn't match any open tag")
              | Some (open_tag, style_stack') =>
                  match close_error styles open_tag with
                  | Some message => Some message
                  | None => render_tags styles tags' style_stack'
                  end
              end
          | [] =>
              match style_stack with
              | [] =>
                  Some (u "closing tag '[/]' at position " ++
                        decimal position ++ u " has nothing to close")
              | open_tag :: style_stack' =>
                  match close_error styles open_tag with
                  | Some message => Some message
                  | None => render_tags styles tags' style_stack'
                  end
              end
          end
      | None =>
          render_tags styles tags'
            ({| tag_name := normalize styles (tag_name tag);
                tag_parameters := tag_parameters tag |} :: style_stack)
      end
  end.

(** [render(markup)], as far as it raises: the message of its
    [MarkupError], or [None] when it returns a text. *)
Definition render_error (styles : Styles) (markup : str) : option str :=
  if contains (u "[") markup then render_tags styles (parse markup) []
  else None.

End Rich.

(* ================================================================= *)
(** ** GroqChat.extract_think_content *)

Definition extract_think_content (text : str) : list str * str :=
  let think_matches := findall text in
  let response := strip (sub [] text) in
  (think_matches, response).

(* ================================================================= *)
(** ** Messages, configuration and the remote completion call *)

Inductive Role := user | assistant.

(** One entry of [conversation_history]: [{"role": ..., "content": ...}]. *)
Record Message := { role : Role; content : str }.

(** [self.config]. *)
Record Config := {
  temperature : Q;
  max_completion_tokens : Z;
  top_p : Q;
  stream : bool
}.

(** The keyword arguments of [self.client.chat.completions.create]
    ([stop] is always [None]). *)
Record Request := {
  req_model : str;
  req_messages : list Message;
  req_temperature : Q;
  req_max_completion_tokens : Z;
  req_top_p : Q;
  req_stream : bool
}.

Inductive Exception :=
| ApiError (message : str)        (* whatever the remote call raises *)
| AttributeError (message : str)  (* the reply has not the shape that is read *)
| TypeError                       (* [re.findall] on a content that is [None] *)
| MarkupError (message : str)     (* the console rejects the markup of a text *)
| OverflowError.                  (* a repeat count that is no index *)

(** [str(e)].  The message of the [TypeError] is that of [re.findall] on
    [None] (Python 3.11 and later). *)
Definition str_of (e : Exception) : str :=
  match e with
  | ApiError message => message
  | AttributeError message => message
  | TypeError => u "expected string or bytes-like object, got 'NoneType'"
  | MarkupError message => message
  | OverflowError => u "cannot fit 'int' into an index-sized integer"
  end.

(** What [create] returns: a whole reply, of which
    [completion.choices[0].message.content] is read, or a stream of chunks,
    of which each [chunk.choices[0].delta.content] is read.  Either content
    may be [None]. *)
Inductive Completion :=
| ChatCompletion (message_content : option str)
| ChunkStream (delta_contents : list (option str)).

(** The remote collaborator: one call either raises or returns. *)
Definition Create := Request -> Exception + Completion.

(** [content or ""]. *)
Definition or_empty (content : option str) : str :=
  match content with
  | Some s => s
  | None => []
  end.

(** The [if self.config['stream'] ... else ...] inside the [try] block of
    [chat], which reads [full_response] off the completion.  Reading a reply
    of the other shape raises, still inside the [try]: a whole reply that is
    iterated yields tuples, and a stream has no [choices].  The progress
    shown by [status.update] while chunks arrive is display only. *)
Definition read_full_response (streaming : bool) (completion : Completion)
  : Exception + option str :=
  match streaming, completion with
  | true, ChunkStream delta_contents =>
      inr (Some (fold_left (fun full_response d => full_response ++ or_empty d)
                           delta_contents []))
  | false, ChatCompletion message_content => inr message_content
  | true, ChatCompletion _ =>
      inl (AttributeError (u "'tuple' object has no attribute 'choices'"))
  | false, ChunkStream _ =>
      inl (AttributeError (u "'Stream' object has no attribute 'choices'"))
  end.

(* ================================================================= *)
(** ** The console *)

(** The console renders a [str] it is given to print, alone or in a panel,
    as markup, and raises [MarkupError] when it rejects it.  A console is
    known here by that: the message of the error it raises on a text, if
    any.  The texts the program prints that hold no data (banner, help,
    titles) are rendered by every run of the program and are taken to
    render; the response is printed as Markdown, not as markup. *)
Definition Console := str -> option str.

(** What is printed, without its styling and its time stamps. *)
Inductive Event :=
| ConsoleClear
| Newline
| WelcomePanel
| ModelInfoPanel
| GoodbyePanel
| HelpPanel
| ApiErrorPanel (e : Exception)
| ThinkPanel (body : str)
| ResponsePanel (response : str)
| Separator
| ErrorPanel (e : Exception).

Definition display_welcome : list Event := [Newline; WelcomePanel; Newline].

(** [format_thinking]: every thought is stripped here, for display. *)
Definition format_thinking (thoughts : list str) : str :=
  let formatted_thoughts :=
    map (fun thought => u "[thinking]" ++ [128173%N] ++ u " " ++
                        strip thought ++ u "[/]") thoughts in
  join [LF; LF] formatted_thoughts.

(* ================================================================= *)
(** ** GroqChat *)

Record GroqChat := {
  conversation_history : list Message;
  config : Config
}.

(** [GroqChat.__init__]. *)
Definition init : GroqChat := {|
  conversation_history := [];
  config := {| temperature := 6 # 10;
               max_completion_tokens := 4096;
               top_p := 95 # 100;
               stream := false |}
|}.

Definition set_history (self : GroqChat) (h : list Message) : GroqChat :=
  {| conversation_history := h; config := config self |}.

(** [GroqChat.create_reasoning_prompt]. *)
Definition create_reasoning_prompt (user_input : str) : str :=
  user_input ++ [LF; LF] ++
  u "Please approach this step-by-step:" ++ [LF] ++
  u "1. First, analyze the question carefully" ++ [LF] ++
  u "2. Break down your thinking process using <think> tags" ++ [LF] ++
  u "3. Validate your reasoning" ++ [LF] ++
  u "4. Provide a clear, final response".

Definition model_name : str := u "deepseek-r1-distill-llama-70b".

Definition apology : str :=
  u "I apologize, but I encountered an error. Please try again.".

(** [lst[-n:]] for [n > 0]: the last [n] elements, the whole list when it
    is shorter. *)
Definition last_n {A : Type} (n : nat) (lst : list A) : list A :=
  skipn (List.length lst - n) lst.

(** The text of the panel that the [except] branch of [chat] prints. *)
Definition api_error_markup (e : Exception) : str :=
  u "[error]API Error: " ++ str_of e ++ u "[/]" ++ [LF] ++
  u "[info]Attempting to recover...[/]".

(** The text of the panel that the [except] branch of [main] prints. *)
Definition error_markup (e : Exception) : str :=
  u "[error]An error occurred: " ++ str_of e ++ u "[/]".

(** How a call of [chat] ends: the session after it, what it printed, and
    either the exception it raised or the pair it returned. *)
Record ChatResult := {
  session : GroqChat;
  printed : list Event;
  outcome : Exception + (list str * str)
}.

(** The user turn that [chat] appends first. *)
Definition user_turn (user_input : str) : Message :=
  {| role := user; content := create_reasoning_prompt user_input |}.

(** The arguments [chat] passes to the remote call: the history with the
    user turn already in it, and the configuration. *)
Definition chat_request (self : GroqChat) (user_input : str) : Request :=
  {| req_model := model_name;
     req_messages := conversation_history self ++ [user_turn user_input];
     req_temperature := temperature (config self);
     req_max_completion_tokens := max_completion_tokens (config self);
     req_top_p := top_p (config self);
     req_stream := stream (config self) |}.

(** The [try] block of [chat]: the remote call and the reading of
    [full_response]; [inl] is any exception raised inside it. *)
Definition try_block (create : Create) (self : GroqChat) (user_input : str)
  : Exception + option str :=
  match create (chat_request self user_input) with
  | inl e => inl e
  | inr completion => read_full_response (stream (config self)) completion
  end.

(** [GroqChat.chat].  In the [except] branch the panel is printed before
    the apology is returned; when the console rejects its text, the
    [MarkupError] leaves [chat]. *)
Definition chat (console : Console) (create : Create) (self : GroqChat)
  (user_input : str) : ChatResult :=
  let history1 := conversation_history self ++ [user_turn user_input] in
  let self1 := set_history self history1 in
  match try_block create self user_input with
  | inl e =>
      match console (api_error_markup e) with
      | Some message =>
          {| session := self1;
             printed := [];
             outcome := inl (MarkupError message) |}
      | None =>
          {| session := self1;
             printed := [ApiErrorPanel e];
             outcome := inr ([], apology) |}
      end
  | inr None =>
      (* [re.findall] raises on [None], after the [try] block *)
      {| session := self1; printed := []; outcome := inl TypeError |}
  | inr (Some full_response) =>
      let (thinking, response) := extract_think_content full_response in
      let history2 :=
        history1 ++ [{| role := assistant; content := full_response |}] in
      let history3 :=
        if 10 <? List.length history2 then last_n 10 history2 else history2 in
      {| session := set_history self1 history3;
         printed := [];
         outcome := inr (thinking, response) |}
  end.

(* ================================================================= *)
(** ** main *)

(** How a round of the loop ends: the loop goes on, is left by [break],
    or is left by an exception that the [except] branch did not absorb. *)
Inductive Control := Continue | Break | Abort (e : Exception).

(** The [except Exception as e] branch of the loop: it prints the error in
    a panel; when the console rejects that text, the [MarkupError] leaves
    the loop. *)
Definition handle (console : Console) (e : Exception)
  : list Event * Control :=
  match console (error_markup e) with
  | None => ([ErrorPanel e], Continue)
  | Some message => ([], Abort (MarkupError message))
  end.

(** One round of the [while True] loop of [main], on the line that
    [Prompt.ask] read. *)
Definition main_step (console : Console) (create : Create)
  (chat_ : GroqChat) (line : str) : GroqChat * list Event * Control :=
  let user_input := strip line in
  if Text.eqb (lower user_input) (u "quit") then
    (chat_, [Newline; Newline; GoodbyePanel], Break)
  else if Text.eqb (lower user_input) (u "/clear") then
    (chat_, [Newline; ConsoleClear] ++ display_welcome, Continue)
  else if Text.eqb (lower user_input) (u "/help") then
    (chat_, [Newline; HelpPanel], Continue)
  else
    let r := chat console create chat_ user_input in
    match outcome r with
    | inr (thinking, response) =>
        match thinking with
        | [] =>
            (session r,
             [Newline; Newline] ++ printed r ++
             [ResponsePanel response; Separator],
             Continue)
        | _ =>
            match console (format_thinking thinking) with
            | None =>
                (session r,
                 [Newline; Newline] ++ printed r ++
                 [ThinkPanel (format_thinking thinking); Newline] ++
                 [ResponsePanel response; Separator],
                 Continue)
            | Some message =>
                (session r,
                 [Newline; Newline] ++ printed r ++
                 fst (handle console (MarkupError message)),
                 snd (handle console (MarkupError message)))
            end
        end
    | inl e =>
        (session r,
         [Newline; Newline] ++ printed r ++ fst (handle console e),
         snd (handle console e))
    end.

(** The loop of [main] over the lines that are read, each with the
    behaviour of the remote call at that time.  When the input ends,
    [Prompt.ask] raises and [main] is left; an exception that leaves a
    round leaves [main] too. *)
Fixpoint main_loop (console : Console) (chat_ : GroqChat)
  (inputs : list (str * Create)) : GroqChat * list Event :=
  match inputs with
  | [] => (chat_, [Newline])
  | (line, create) :: rest =>
      match main_step console create chat_ line with
      | (chat', events, Continue) =>
          let (chat'', events') := main_loop console chat' rest in
          (chat'', events ++ events')
      | (chat', events, _) => (chat', events)
      end
  end.

(** [main]. *)
Definition main (console : Console) (inputs : list (str * Create))
  : GroqChat * list Event :=
  let chat_ := init in
  let (chat', events) := main_loop console chat_ inputs in
  (chat', [ConsoleClear] ++ display_welcome ++ [ModelInfoPanel] ++ events).

(* ================================================================= *)
(** ** Vocabulary of the statements *)

(** A text laid out as tagged spans: each span is the untagged text before
    it and the content between its markers; [tail] follows the last one. *)
Fixpoint rebuild (spans : list (str * str)) (tail : str) : str :=
  match spans with
  | [] => tail
  | (gap, inner) :: spans' =>
      gap ++ think_open ++ inner ++ think_close ++ rebuild spans' tail
  end.

(** The untagged text of such a layout. *)
Definition untagged (spans : list (str * str)) (tail : str) : str :=
  concat (map fst spans) ++ tail.

(** A text [x] followed by an opening marker and [rest]. *)
Definition extend (rest x : str) : str := x ++ think_open ++ rest.

(** A match of the lazy group, or of the pattern, found in [x], seen in
    [extend rest x]: the text after it is extended. *)
Definition extend_group (rest : str) (m : str * str) : str * str :=
  (fst m, extend rest (snd m)).

Definition extend_match (rest : str) (m : str * str * str)
  : str * str * str :=
  (fst (fst m), snd (fst m), extend rest (snd m)).

(** A remote call that answers [reply] whatever it is asked. *)
Definition replying (reply : str) : Create :=
  fun _ => inr (ChatCompletion (Some reply)).

(** A remote call that raises [e] whatever it is asked. *)
Definition raising (e : Exception) : Create := fun _ => inl e.

(** The console of the program, for tag names that are no style
    definitions. *)
Definition rich : Console := Rich.render_error Rich.plain_styles.

(** The session after a run of [main]. *)
Definition session_after (console : Console) (inputs : list (str * Create))
  : GroqChat :=
  fst (main console inputs).

(** The layout of a text as the scan finds it: no opening marker before a
    span, no closing marker inside it, and no further span in the tail. *)
Definition well_laid (spans : list (str * str)) (tail : str) : Prop :=
  Forall (fun span => contains think_open (fst span) = false /\
                      contains think_close (snd span) = false) spans /\
  search tail = None.

(** Five turns that all get a reply: ten messages. *)
Definition five_turns : list (str * Create) :=
  repeat (u "hello", replying (u "<think>greet</think>hi")) 5.

Definition timed_out : Exception := ApiError (u "timed out").

(* ================================================================= *)
(** ** The other helpers of chat.py *)

(** [s * n], where [maxsize] is [sys.maxsize], the largest index of the
    platform: a count that is no index raises, as does a result longer
    than [maxsize]; a count that is not positive gives the empty text.
    (Running out of memory is not modelled, here as elsewhere.) *)
Definition times (maxsize : Z) (s : str) (n : Z) : Exception + str :=
  if ((n <? - maxsize - 1) || (maxsize <? n))%Z then inl OverflowError
  else if (n <? 1)%Z then inr []
  else if (maxsize / n <? Z.of_nat (List.length s))%Z then inl OverflowError
  else inr (concat (repeat s (Z.to_nat n))).

(** [create_fancy_border(text, padding)]; [padding] defaults to 2.  The
    box-drawing characters are given by their code points. *)
Definition create_fancy_border (maxsize : Z) (text : str) (padding : Z)
  : Exception + str :=
  let width := (Z.of_nat (List.length text) + 2 * padding)%Z in
  match times maxsize [9552%N] width with
  | inl e => inl e
  | inr border =>
      match times maxsize (u " ") padding with
      | inl e => inl e
      | inr pad =>
          inr ([9556%N] ++ border ++ [9559%N] ++ [LF] ++
               [9553%N] ++ pad ++ text ++ pad ++ [9553%N] ++ [LF] ++
               [9562%N] ++ border ++ [9565%N])
      end
  end.

(** The history is made of whole turns: a user message, then the
    assistant message that answers it, and so on. *)
Fixpoint paired (history : list Message) : bool :=
  match history with
  | [] => true
  | question :: answer :: history' =>
      match role question, role answer with
      | user, assistant => paired history'
      | _, _ => false
      end
  | _ => false
  end.

(** A remote call that streams the chunks [delta_contents]. *)
Definition streaming (delta_contents : list (option str)) : Create :=
  fun _ => inr (ChunkStream delta_contents).

(** A remote call whose reply has no content. *)
Definition silent : Create := fun _ => inr (ChatCompletion None).

(** A session configured for streaming. *)
Definition init_streaming : GroqChat := {|
  conversation_history := [];
  config := {| temperature := temperature (config init);
               max_completion_tokens := max_completion_tokens (config init);
               top_p := top_p (config init);
               stream := true |}
|}.

(* ================================================================= *)
(** * Properties *)

(** ** Stripping *)

Section Strip.

Lemma eqb_eq (a b : str) : Text.eqb a b = true <-> a = b.
Proof.
  revert b. induction a as [|x a IH]; intros [|y b]; simpl;
    try (split; [discriminate | congruence]); [tauto|].
  rewrite andb_true_iff, N.eqb_eq, IH. split.
  - intros [-> ->]. reflexivity.
  - intros H. inversion H. tauto.
Qed.

Lemma lstrip_fixed (c : char) (s : str) :
  isspace c = false -> lstrip (c :: s) = c :: s.
Proof. intros H. simpl. now rewrite H. Qed.

Lemma lstrip_head (s : str) :
  lstrip s = [] \/ exists c t, lstrip s = c :: t /\ isspace c = false.
Proof.
  induction s as [|c t IH]; simpl.
  - now left.
  - destruct (isspace c) eqn:E; [exact IH|].
    right. now exists c, t.
Qed.

Lemma lstrip_idem (s : str) : lstrip (lstrip s) = lstrip s.
Proof.
  destruct (lstrip_head s) as [-> | (c & t & -> & Hc)]; [reflexivity|].
  now apply lstrip_fixed.
Qed.

Lemma lstrip_app_nonspace (s : str) (c : char) :
  isspace c = false -> exists p, lstrip (s ++ [c]) = p ++ [c] /\ lstrip s = p.
Proof.
  intros Hc. induction s as [|a t IH]; simpl.
  - rewrite Hc. now exists [].
  - destruct (isspace a); [exact IH|].
    now exists (a :: t).
Qed.

Lemma rstrip_idem (s : str) : rstrip (rstrip s) = rstrip s.
Proof.
  unfold rstrip. now rewrite rev_involutive, lstrip_idem.
Qed.

(** Stripping the right end leaves a stripped left end alone. *)
Lemma lstrip_rstrip_lstrip (s : str) :
  lstrip (rstrip (lstrip s)) = rstrip (lstrip s).
Proof.
  destruct (lstrip_head s) as [-> | (c & t & -> & Hc)]; [reflexivity|].
  unfold rstrip. simpl rev.
  destruct (lstrip_app_nonspace (rev t) c Hc) as (p & -> & _).
  rewrite rev_app_distr. simpl. now rewrite Hc.
Qed.

Lemma strip_idem (s : str) : strip (strip s) = strip s.
Proof.
  unfold strip. now rewrite lstrip_rstrip_lstrip, rstrip_idem.
Qed.

End Strip.

(** ** The scan for tagged spans *)

Section Scan.

Lemma drop_prefix_app (p t r : str) :
  drop_prefix p t = Some r <-> t = p ++ r.
Proof.
  revert t. induction p as [|a p IH]; intros t; simpl.
  - split; congruence.
  - destruct t as [|b t]; [split; discriminate|].
    destruct (N.eqb_spec a b) as [->|Hab].
    + rewrite IH. split; congruence.
    + split; [discriminate|]. intros H. inversion H. congruence.
Qed.

Lemma lazy_until_app (close text group rest : str) :
  lazy_until close text = Some (group, rest) -> text = group ++ close ++ rest.
Proof.
  revert group. induction text as [|c t IH]; intros group; simpl.
  - destruct (drop_prefix close []) eqn:E; [|discriminate].
    intros H. inversion H; subst. now apply drop_prefix_app in E.
  - destruct (drop_prefix close (c :: t)) eqn:E.
    + intros H. inversion H; subst. now apply drop_prefix_app in E.
    + destruct (lazy_until close t) as [[g r]|]; [|discriminate].
      intros H. inversion H; subst. simpl. f_equal. now apply IH.
Qed.

Lemma match_at_app (text group rest : str) :
  match_at text = Some (group, rest) ->
  text = think_open ++ group ++ think_close ++ rest.
Proof.
  unfold match_at. destruct (drop_prefix think_open text) eqn:E; [|discriminate].
  intros H. apply drop_prefix_app in E. apply lazy_until_app in H. congruence.
Qed.

(** A match found by [search] lies where it says. *)
Lemma search_app (text before group rest : str) :
  search text = Some (before, group, rest) ->
  text = before ++ think_open ++ group ++ think_close ++ rest.
Proof.
  revert before. induction text as [|c t IH]; intros before; simpl.
  - intros H. discriminate H.
  - destruct (match_at (c :: t)) as [[g r]|] eqn:E.
    + intros H. inversion H; subst. now apply match_at_app in E.
    + destruct (search t) as [[[b g] r]|]; [|discriminate].
      intros H. inversion H; subst. simpl. f_equal. now apply IH.
Qed.

(** The scan resumes on a shorter text. *)
Lemma search_shorter (text before group rest : str) :
  search text = Some (before, group, rest) ->
  List.length rest + 15 <= List.length text.
Proof.
  intros H. apply search_app in H. subst.
  rewrite !length_app. unfold think_open, think_close. simpl. lia.
Qed.

(** Fuel beyond the length of the text is never used. *)
Lemma finditer_fuel (fuel : nat) (text : str) :
  List.length text <= fuel ->
  finditer fuel text = finditer (List.length text) text.
Proof.
  revert text.
  induction fuel as [fuel IH] using (well_founded_induction lt_wf).
  intros text Hlen.
  destruct fuel as [|fuel].
  - assert (List.length text = 0) as -> by lia. reflexivity.
  - destruct (List.length text) as [|n] eqn:En.
    + destruct text; [|discriminate]. reflexivity.
    + simpl. destruct (search text) as [[[b g] r]|] eqn:Es; [|reflexivity].
      pose proof (search_shorter _ _ _ _ Es) as Hr.
      rewrite (IH fuel) by lia.
      rewrite (IH n) by lia.
      reflexivity.
Qed.

(** The scan as an equation on the text itself. *)
Lemma finditer_unfold (text : str) :
  finditer (List.length text) text =
  match search text with
  | None => ([], text)
  | Some (before, group, rest) =>
      let (spans, tail) := finditer (List.length rest) rest in
      ((before, group) :: spans, tail)
  end.
Proof.
  destruct (search text) as [[[b g] r]|] eqn:Es.
  - pose proof (search_shorter _ _ _ _ Es) as Hr.
    destruct (List.length text) as [|n] eqn:En; [lia|].
    simpl. rewrite Es. rewrite (finditer_fuel n r) by lia. reflexivity.
  - destruct (List.length text); simpl; now rewrite ?Es.
Qed.

End Scan.


(** ** What the parser returns *)

Section Parser.

Lemma lazy_until_cons (close : str) (c : char) (t : str) :
  lazy_until close (c :: t) =
  match drop_prefix close (c :: t) with
  | Some rest => Some ([], rest)
  | None => match lazy_until close t with
            | Some (group, rest) => Some (c :: group, rest)
            | None => None
            end
  end.
Proof. reflexivity. Qed.

Lemma search_cons (c : char) (t : str) :
  search (c :: t) =
  match match_at (c :: t) with
  | Some (group, rest) => Some ([], group, rest)
  | None => match search t with
            | Some (before, group, rest) => Some (c :: before, group, rest)
            | None => None
            end
  end.
Proof. reflexivity. Qed.

Lemma contains_cons (pat : str) (c : char) (t : str) :
  contains pat (c :: t) =
  match drop_prefix pat (c :: t) with
  | Some _ => true
  | None => contains pat t
  end.
Proof. reflexivity. Qed.

(** The lazy group stops at the first closing marker: none lies inside
    it. *)
Lemma lazy_until_shortest (text group rest : str) :
  lazy_until think_close text = Some (group, rest) ->
  contains think_close group = false.
Proof.
  revert group. induction text as [|c t IH]; intros group.
  - intros H. discriminate H.
  - rewrite lazy_until_cons.
    destruct (drop_prefix think_close (c :: t)) as [r|] eqn:E.
    + intros H. inversion H; subst. reflexivity.
    + destruct (lazy_until think_close t) as [[g r]|] eqn:El; [|discriminate].
      intros H. inversion H; subst.
      specialize (IH g eq_refl).
      apply lazy_until_app in El. subst t.
      rewrite contains_cons.
      destruct (drop_prefix think_close (c :: g)) as [r'|] eqn:E'; [|exact IH].
      apply drop_prefix_app in E'.
      assert (drop_prefix think_close (c :: g ++ think_close ++ rest)
              = Some (r' ++ think_close ++ rest)) as Hc.
      { apply drop_prefix_app.
        change (c :: g ++ think_close ++ rest)
          with ((c :: g) ++ think_close ++ rest).
        rewrite E', <- app_assoc. reflexivity. }
      congruence.
Qed.

Lemma search_shortest (text before group rest : str) :
  search text = Some (before, group, rest) ->
  contains think_close group = false.
Proof.
  revert before. induction text as [|c t IH]; intros before.
  - intros H. discriminate H.
  - rewrite search_cons.
    destruct (match_at (c :: t)) as [[g r]|] eqn:E.
    + intros H. inversion H; subst.
      unfold match_at in E.
      destruct (drop_prefix think_open (c :: t)); [|discriminate].
      eapply lazy_until_shortest; eassumption.
    + destruct (search t) as [[[b g] r]|]; [|discriminate].
      intros H. inversion H; subst. eapply IH; reflexivity.
Qed.

(** The result of the scan lays the text out as tagged spans, in the order
    of the text, each content free of closing markers, and the tail holds
    no further span. *)
Lemma finditer_layout (text : str) :
  let (spans, tail) := finditer (List.length text) text in
  text = rebuild spans tail /\
  Forall (fun span => contains think_close (snd span) = false) spans /\
  search tail = None.
Proof.
  remember (List.length text) as n eqn:En. revert text En.
  induction n as [n IH] using (well_founded_induction lt_wf).
  intros text ->. rewrite finditer_unfold.
  destruct (search text) as [[[b g] r]|] eqn:Es.
  - pose proof (search_shorter _ _ _ _ Es) as Hr.
    assert (List.length r < List.length text) as Hlt by lia.
    specialize (IH _ Hlt r eq_refl).
    destruct (finditer (List.length r) r) as [spans tail].
    destruct IH as (Hr1 & Hr2 & Hr3).
    repeat split.
    + simpl. rewrite <- Hr1. now apply search_app.
    + constructor; [|exact Hr2]. simpl. eapply search_shortest; eassumption.
    + exact Hr3.
  - repeat split; [constructor | exact Es].
Qed.

(** Without an opening marker nothing matches. *)
Lemma search_no_open (text : str) :
  contains think_open text = false -> search text = None.
Proof.
  induction text as [|c t IH]; [reflexivity|].
  rewrite contains_cons, search_cons. unfold match_at.
  destruct (drop_prefix think_open (c :: t)); [discriminate|].
  intros H. now rewrite (IH H).
Qed.

Lemma extract_no_match (text : str) :
  search text = None -> extract_think_content text = ([], strip text).
Proof.
  intros H. unfold extract_think_content, findall, sub.
  rewrite finditer_unfold, H. reflexivity.
Qed.

(** C2, as stated, fails: the content of a span is returned with its
    surrounding white space. *)
Lemma thinking_not_trimmed :
  u "<think> a </think>" = rebuild [([], u " a ")] [] /\
  fst (extract_think_content (u "<think> a </think>")) = [u " a "] /\
  fst (extract_think_content (u "<think> a </think>")) <> [strip (u " a ")].
Proof.
  repeat split. vm_compute. discriminate.
Qed.

(** C3, as amended: on [<think>a</think>mid<think>b</think>end] the
    thinking sequence is [a], [b] and the answer is [midend]: the spans are
    replaced by the empty string, so the surrounding texts are joined with
    nothing between them. *)
Theorem two_spans_example :
  extract_think_content (u "<think>a</think>mid<think>b</think>end")
  = ([u "a"; u "b"], u "midend").
Proof. reflexivity. Qed.

(** C3, as stated, fails: the answer is not [mid end]. *)
Lemma two_spans_not_joined_by_space :
  extract_think_content (u "<think>a</think>mid<think>b</think>end")
  <> ([u "a"; u "b"], u "mid end").
Proof. vm_compute. discriminate. Qed.

(** C6: for every text without a [<think>] marker the thinking sequence is
    empty and the answer is the trimmed text; hence parsing an answer that
    was already parsed, and holds no marker, returns it unchanged. *)
Theorem tag_free_text_parses_to_itself (text : str)
  (Hfree : contains think_open text = false) :
  extract_think_content text = ([], strip text) /\
  (forall raw, snd (extract_think_content raw) = text ->
               extract_think_content text = ([], text)).
Proof.
  pose proof (extract_no_match text (search_no_open text Hfree)) as H.
  split; [exact H|].
  intros raw Hraw. rewrite H. f_equal.
  rewrite <- Hraw. unfold extract_think_content. simpl. apply strip_idem.
Qed.

Lemma tag_free_text_parses_to_itself_witness :
  contains think_open (u "Hello world") = false /\
  extract_think_content (u "Hello world") = ([], strip (u "Hello world")) /\
  extract_think_content (u "Hello world") = ([], u "Hello world").
Proof.
  assert (contains think_open (u "Hello world") = false) as Hfree
    by reflexivity.
  destruct (tag_free_text_parses_to_itself (u "Hello world") Hfree)
    as [H1 H2].
  split; [exact Hfree|]. split; [exact H1|].
  apply (H2 (u "<think>x</think> Hello world ")). reflexivity.
Defined.

End Parser.

(** ** An opening marker that is never closed *)

Section Unclosed.

Variable rest : str.
Hypothesis rest_unclosed : contains think_close rest = false.

Local Abbreviation extend := (extend rest).
Local Abbreviation extend_group := (extend_group rest).
Local Abbreviation extend_match := (extend_match rest).

Lemma drop_prefix_long (p y z : str) :
  List.length p <= List.length y ->
  drop_prefix p (y ++ z) = option_map (fun r => r ++ z) (drop_prefix p y).
Proof.
  revert y. induction p as [|a p IH]; intros y Hlen; [reflexivity|].
  destruct y as [|b y]; [simpl in Hlen; lia|].
  simpl. destruct (a =? b)%N; [|reflexivity].
  apply IH. simpl in Hlen. lia.
Qed.

Lemma drop_prefix_none (p t : str) :
  (forall r, t <> p ++ r) -> drop_prefix p t = None.
Proof.
  intros H. destruct (drop_prefix p t) as [r|] eqn:E; [|reflexivity].
  apply drop_prefix_app in E. now apply H in E.
Qed.

Ltac short_prefix y :=
  repeat (destruct y as [|? y];
          [ rewrite !drop_prefix_none;
            [ reflexivity
            | intros r; unfold think_open, think_close; simpl; discriminate .. ]
          | ]).

(** No closing marker straddles the end of [y]. *)
Lemma close_boundary (y : str) :
  drop_prefix think_close (extend y) =
  option_map extend (drop_prefix think_close y).
Proof.
  unfold extend.
  destruct (Nat.le_gt_cases (List.length think_close) (List.length y)) as [H|H].
  - now apply drop_prefix_long.
  - revert H. short_prefix y. simpl. intros H. lia.
Qed.

(** No opening marker straddles the end of a non-empty [y]. *)
Lemma open_boundary (c : char) (y : str) :
  drop_prefix think_open (extend (c :: y)) =
  option_map extend (drop_prefix think_open (c :: y)).
Proof.
  unfold extend.
  destruct (Nat.le_gt_cases (List.length think_open) (List.length (c :: y)))
    as [H|H].
  - now apply drop_prefix_long.
  - revert H. short_prefix y. simpl. intros H. lia.
Qed.

Lemma lazy_until_no_close (text : str) :
  contains think_close text = false -> lazy_until think_close text = None.
Proof.
  induction text as [|c t IH]; [reflexivity|].
  rewrite contains_cons, lazy_until_cons.
  destruct (drop_prefix think_close (c :: t)); [discriminate|].
  intros H. now rewrite (IH H).
Qed.

Lemma search_no_close (text : str) :
  contains think_close text = false -> search text = None.
Proof.
  induction text as [|c t IH]; [reflexivity|].
  intros H. rewrite search_cons. unfold match_at.
  rewrite contains_cons in H.
  destruct (drop_prefix think_close (c :: t)) eqn:Ec; [discriminate|].
  rewrite (IH H).
  destruct (drop_prefix think_open (c :: t)) as [body|] eqn:Eo; [|reflexivity].
  assert (contains think_close body = false) as Hb.
  { apply drop_prefix_app in Eo. unfold think_open in Eo. simpl in Eo.
    inversion Eo; subst. clear Eo Ec IH.
    repeat (rewrite contains_cons in H;
            match type of H with
            | match ?d with _ => _ end = _ => destruct d; [discriminate|]
            end).
    exact H. }
  now rewrite (lazy_until_no_close body Hb).
Qed.

Lemma contains_open_rest : contains think_close (extend []) = false.
Proof.
  unfold extend, think_open. simpl app.
  repeat (rewrite contains_cons;
          rewrite drop_prefix_none
            by (intros r; unfold think_close; simpl; discriminate)).
  exact rest_unclosed.
Qed.

Lemma lazy_until_boundary (x : str) :
  lazy_until think_close (extend x) =
  option_map extend_group (lazy_until think_close x).
Proof.
  induction x as [|c x IH].
  - now rewrite (lazy_until_no_close _ contains_open_rest).
  - change (extend (c :: x)) with (c :: extend x) at 1.
    rewrite !lazy_until_cons.
    change (c :: extend x) with (extend (c :: x)).
    rewrite close_boundary.
    destruct (drop_prefix think_close (c :: x)); [reflexivity|].
    simpl option_map. rewrite IH.
    now destruct (lazy_until think_close x) as [[g r]|].
Qed.

Lemma match_at_boundary (x : str) :
  match_at (extend x) = option_map extend_group (match_at x).
Proof.
  unfold match_at. destruct x as [|c x].
  - replace (drop_prefix think_open (extend [])) with (Some rest).
    + now rewrite (lazy_until_no_close _ rest_unclosed).
    + symmetry. now apply drop_prefix_app.
  - rewrite open_boundary.
    destruct (drop_prefix think_open (c :: x)) as [body|]; [|reflexivity].
    apply lazy_until_boundary.
Qed.

Lemma search_boundary (x : str) :
  search (extend x) = option_map extend_match (search x).
Proof.
  induction x as [|c x IH].
  - now rewrite (search_no_close _ contains_open_rest).
  - change (extend (c :: x)) with (c :: extend x) at 1.
    rewrite !search_cons.
    change (c :: extend x) with (extend (c :: x)).
    rewrite match_at_boundary.
    destruct (match_at (c :: x)) as [[g r]|]; [reflexivity|].
    simpl option_map. rewrite IH.
    now destruct (search x) as [[[b g] r]|].
Qed.

Lemma finditer_boundary (fuel : nat) (x : str) :
  finditer fuel (extend x) =
  (fst (finditer fuel x), extend (snd (finditer fuel x))).
Proof.
  revert x. induction fuel as [|fuel IH]; intros x; [reflexivity|].
  simpl. rewrite search_boundary.
  destruct (search x) as [[[b g] r]|]; [|reflexivity].
  simpl. rewrite IH.
  now destruct (finditer fuel r).
Qed.

Lemma finditer_extend (x : str) :
  finditer (List.length (extend x)) (extend x) =
  (fst (finditer (List.length x) x), extend (snd (finditer (List.length x) x))).
Proof.
  rewrite finditer_boundary.
  rewrite (finditer_fuel (List.length (extend x)) x); [reflexivity|].
  unfold extend. rewrite length_app. lia.
Qed.

End Unclosed.

Section UnclosedAnswer.

Lemma lstrip_app_start (s t : str) (c : char) :
  isspace c = false -> lstrip (s ++ c :: t) = lstrip s ++ c :: t.
Proof.
  intros Hc. induction s as [|a s IH]; simpl.
  - now rewrite Hc.
  - now destruct (isspace a).
Qed.

Lemma rstrip_app_end (s t : str) (c : char) :
  isspace c = false -> rstrip (s ++ c :: t) = s ++ c :: rstrip t.
Proof.
  intros Hc. unfold rstrip.
  rewrite rev_app_distr. simpl rev. rewrite <- app_assoc. simpl app.
  rewrite (lstrip_app_start _ _ _ Hc).
  rewrite rev_app_distr. simpl rev. rewrite rev_involutive, <- app_assoc.
  reflexivity.
Qed.

Lemma strip_around_open (s t : str) :
  strip (s ++ think_open ++ t) = lstrip s ++ think_open ++ rstrip t.
Proof.
  unfold strip, think_open. simpl u. simpl app.
  rewrite lstrip_app_start by reflexivity.
  change (lstrip s ++ 60%N :: 116%N :: 104%N :: 105%N :: 110%N :: 107%N :: 62%N :: t)
    with (lstrip s ++ u "<think" ++ 62%N :: t).
  rewrite app_assoc, rstrip_app_end by reflexivity.
  rewrite <- app_assoc. reflexivity.
Qed.




End UnclosedAnswer.

(** ** The session *)

Section Session.

Lemma last_n_length {A : Type} (n : nat) (l : list A) :
  List.length (last_n n l) = Nat.min n (List.length l).
Proof. unfold last_n. rewrite length_skipn. lia. Qed.

Lemma last_n_suffix {A : Type} (n : nat) (l : list A) :
  l = firstn (List.length l - n) l ++ last_n n l.
Proof. unfold last_n. now rewrite firstn_skipn. Qed.

Lemma last_n_all {A : Type} (n : nat) (l : list A) :
  List.length l <= n -> last_n n l = l.
Proof.
  intros H. unfold last_n. replace (List.length l - n) with 0 by lia.
  reflexivity.
Qed.

Lemma last_n_snoc {A : Type} (n : nat) (l : list A) (x : A) :
  last_n (S n) (l ++ [x]) = last_n n l ++ [x].
Proof.
  unfold last_n. rewrite length_app. simpl List.length.
  replace (List.length l + 1 - S n) with (List.length l - n) by lia.
  rewrite skipn_app.
  replace (List.length l - n - List.length l) with 0 by lia.
  reflexivity.
Qed.

(** A call of [chat] whose [try] block raised. *)
Lemma chat_raised (console : Console) (create : Create) (self : GroqChat)
  (user_input : str) (e : Exception) :
  try_block create self user_input = inl e ->
  chat console create self user_input =
  {| session := set_history self
                  (conversation_history self ++ [user_turn user_input]);
     printed := match console (api_error_markup e) with
                | None => [ApiErrorPanel e]
                | Some _ => []
                end;
     outcome := match console (api_error_markup e) with
                | None => inr ([], apology)
                | Some message => inl (MarkupError message)
                end |}.
Proof.
  intros H. unfold chat. rewrite H.
  now destruct (console (api_error_markup e)).
Qed.

(** The history after a call of [chat] that got a reply. *)
Lemma chat_replied (console : Console) (create : Create) (self : GroqChat)
  (user_input : str)
  (full_response : str) :
  try_block create self user_input = inr (Some full_response) ->
  chat console create self user_input =
  {| session := set_history self
                  (last_n 10 (conversation_history self ++
                              [user_turn user_input;
                               {| role := assistant;
                                  content := full_response |}]));
     printed := [];
     outcome := inr (extract_think_content full_response) |}.
Proof.
  intros H. unfold chat. rewrite H.
  destruct (extract_think_content full_response) as [thinking response].
  cbv zeta.
  set (reply := {| role := assistant; content := full_response |}).
  replace ((conversation_history self ++ [user_turn user_input]) ++ [reply])
    with (conversation_history self ++ [user_turn user_input; reply])
    by (now rewrite <- app_assoc).
  set (grown := conversation_history self ++ [user_turn user_input; reply]).
  destruct (Nat.ltb_spec 10 (List.length grown)) as [Hlt|Hle].
  - reflexivity.
  - now rewrite last_n_all.
Qed.

Lemma try_block_replying (reply : str) (self : GroqChat) (user_input : str) :
  stream (config self) = false ->
  try_block (replying reply) self user_input = inr (Some reply).
Proof. intros H. unfold try_block, replying. now rewrite H. Qed.

(** C4: a remote call that raises with a message that holds a closing
    tag.  The [except] branch of [chat] prints the message in a panel, as
    markup; the console rejects it, and [chat] raises [MarkupError] to its
    caller where it was to return the apology.  The history ends with the
    user turn. *)
Theorem failed_chat_raises_on_markup_in_message :
  outcome (chat rich (raising (ApiError (u "model [/x] not found"))) init
                (u "hi"))
  = inl (MarkupError
           (u "closing tag '[/x]' at position 24 doesn't match any open tag"))
  /\
  conversation_history
    (session (chat rich (raising (ApiError (u "model [/x] not found"))) init
                   (u "hi")))
  = [user_turn (u "hi")].
Proof. split; reflexivity. Qed.

(** X17: when the remote call raises, the history is the former history
    followed by the user turn, and the configuration is unchanged; [chat]
    returns no thinking and the apology when the console renders the panel
    of the error, and raises the [MarkupError] of the console when it
    rejects it. *)
Theorem failed_chat_returns_or_raises (console : Console) (create : Create)
  (self : GroqChat) (user_input : str) (e : Exception)
  (Hraise : create (chat_request self user_input) = inl e) :
  conversation_history (session (chat console create self user_input)) =
    conversation_history self ++ [user_turn user_input] /\
  config (session (chat console create self user_input)) = config self /\
  (console (api_error_markup e) = None ->
   outcome (chat console create self user_input) = inr ([], apology)) /\
  (forall message,
     console (api_error_markup e) = Some message ->
     outcome (chat console create self user_input)
     = inl (MarkupError message)).
Proof.
  assert (try_block create self user_input = inl e) as H
    by (unfold try_block; now rewrite Hraise).
  rewrite (chat_raised _ _ _ _ _ H). simpl.
  repeat split.
  - now intros ->.
  - now intros message ->.
Qed.

Lemma failed_chat_returns_or_raises_witness :
  raising timed_out (chat_request init (u "hi")) = inl timed_out /\
  outcome (chat rich (raising timed_out) init (u "hi"))
    = inr ([], apology) /\
  conversation_history (session (chat rich (raising timed_out) init (u "hi")))
    = [user_turn (u "hi")].
Proof.
  split; [reflexivity|].
  destruct (failed_chat_returns_or_raises
              rich (raising timed_out) init (u "hi") timed_out eq_refl)
    as (H1 & _ & H2 & _).
  split; [apply H2; reflexivity | exact H1].
Defined.

(** C5, as amended: after every call of [chat] in which a reply text was
    read from the remote call (the [try] block ended with a
    [full_response] that is a text), the history has at most 10 messages:
    it is the last 10 of the former history followed by the new user and
    assistant turns, so that when these were more than 10, exactly the 10
    most recent remain, in their order. *)
Theorem replied_chat_keeps_last_ten (console : Console) (create : Create)
  (self : GroqChat)
  (user_input full_response : str)
  (Hok : try_block create self user_input = inr (Some full_response)) :
  let grown := conversation_history self ++
               [user_turn user_input;
                {| role := assistant; content := full_response |}] in
  let kept :=
    conversation_history (session (chat console create self user_input)) in
  List.length kept <= 10 /\
  kept = last_n 10 grown /\
  (10 < List.length grown ->
   List.length kept = 10 /\ exists dropped, grown = dropped ++ kept) /\
  (List.length grown <= 10 -> kept = grown).
Proof.
  intros grown kept. subst kept. rewrite (chat_replied _ _ _ _ _ Hok).
  simpl. fold grown. repeat split.
  - rewrite last_n_length. lia.
  - rewrite last_n_length. lia.
  - exists (firstn (List.length grown - 10) grown). apply last_n_suffix.
  - apply last_n_all.
Qed.

Lemma replied_chat_keeps_last_ten_witness :
  try_block (replying (u "hi")) (session_after rich five_turns) (u "more")
    = inr (Some (u "hi")) /\
  List.length (conversation_history (session_after rich five_turns)) = 10 /\
  List.length
    (conversation_history
       (session (chat rich (replying (u "hi")) (session_after rich five_turns)
                      (u "more")))) = 10.
Proof.
  split; [reflexivity|]. split; [reflexivity|].
  destruct (replied_chat_keeps_last_ten
              rich
              (replying (u "hi")) (session_after rich five_turns) (u "more")
              (u "hi") eq_refl) as (_ & _ & H & _).
  apply H. vm_compute. lia.
Defined.

(** C5, as stated, fails: a call of [chat] whose remote call raises
    returns with the user turn appended and nothing dropped, so after ten
    messages the history has eleven. *)
Lemma failed_chat_exceeds_ten :
  List.length (conversation_history (session_after rich five_turns)) = 10 /\
  outcome (chat rich (raising timed_out) (session_after rich five_turns)
                (u "more"))
    = inr ([], apology) /\
  ~ List.length
      (conversation_history
         (session (chat rich (raising timed_out)
                        (session_after rich five_turns) (u "more")))) <= 10.
Proof.
  split; [reflexivity|]. split; [reflexivity|].
  vm_compute. lia.
Qed.

(** C8: after a call of [chat] that got a reply, the last message of the
    history is the assistant turn holding the reply as it was received,
    tags included, whereas the caller gets the parsed pair. *)
Theorem assistant_turn_stores_raw_reply (console : Console) (create : Create)
  (self : GroqChat)
  (user_input full_response : str)
  (Hok : try_block create self user_input = inr (Some full_response)) :
  (exists earlier,
     conversation_history (session (chat console create self user_input)) =
     earlier ++ [{| role := assistant; content := full_response |}]) /\
  outcome (chat console create self user_input) =
    inr (extract_think_content full_response).
Proof.
  rewrite (chat_replied _ _ _ _ _ Hok). simpl. split; [|reflexivity].
  exists (last_n 9 (conversation_history self ++ [user_turn user_input])).
  rewrite <- last_n_snoc, <- app_assoc. reflexivity.
Qed.

Lemma assistant_turn_stores_raw_reply_witness :
  try_block (replying (u "<think>2+2</think>4")) init (u "sum")
    = inr (Some (u "<think>2+2</think>4")) /\
  conversation_history
    (session (chat rich (replying (u "<think>2+2</think>4")) init (u "sum")))
    = [user_turn (u "sum");
       {| role := assistant; content := u "<think>2+2</think>4" |}] /\
  outcome (chat rich (replying (u "<think>2+2</think>4")) init (u "sum"))
    = inr ([u "2+2"], u "4").
Proof.
  split; [reflexivity|]. split; [reflexivity|].
  exact (proj2 (assistant_turn_stores_raw_reply
                  rich
                  (replying (u "<think>2+2</think>4")) init (u "sum")
                  (u "<think>2+2</think>4") eq_refl)).
Defined.

(** C9: two calls of [chat] in a row that both get a reply, on a session
    whose history is empty, leave exactly four messages: user, assistant,
    user, assistant. *)
Theorem two_chats_on_fresh_session (console : Console)
  (create1 create2 : Create)
  (self : GroqChat) (input1 input2 reply1 reply2 : str)
  (Hfresh : conversation_history self = [])
  (Hok1 : try_block create1 self input1 = inr (Some reply1))
  (Hok2 : try_block create2 (session (chat console create1 self input1)) input2
          = inr (Some reply2)) :
  let history :=
    conversation_history
      (session (chat console create2 (session (chat console create1 self input1)) input2)) in
  history = [user_turn input1; {| role := assistant; content := reply1 |};
             user_turn input2; {| role := assistant; content := reply2 |}] /\
  List.length history = 4 /\
  map role history = [user; assistant; user; assistant].
Proof.
  intros history.
  assert (history =
          [user_turn input1; {| role := assistant; content := reply1 |};
           user_turn input2; {| role := assistant; content := reply2 |}])
    as ->; [|repeat split].
  subst history. rewrite (chat_replied _ _ _ _ _ Hok2).
  rewrite (chat_replied _ _ _ _ _ Hok1). simpl. rewrite Hfresh. reflexivity.
Qed.

Lemma two_chats_on_fresh_session_witness :
  conversation_history init = [] /\
  map role
    (conversation_history
       (session (chat rich (replying (u "two"))
                      (session (chat rich (replying (u "one")) init (u "a")))
                      (u "b"))))
  = [user; assistant; user; assistant].
Proof.
  split; [reflexivity|].
  exact (proj2 (proj2 (two_chats_on_fresh_session
                         rich
                         (replying (u "one")) (replying (u "two")) init
                         (u "a") (u "b") (u "one") (u "two")
                         eq_refl eq_refl eq_refl))).
Defined.

(** C10: the [/clear] command leaves the session as it is, history and
    configuration: it clears the display and prints the welcome banner
    again, and the loop goes on. *)
Theorem clear_command_keeps_session (console : Console) (create : Create)
  (chat_ : GroqChat) (line : str)
  (Hclear : lower (strip line) = u "/clear") :
  main_step console create chat_ line =
  (chat_, [Newline; ConsoleClear; Newline; WelcomePanel; Newline], Continue).
Proof.
  unfold main_step. rewrite Hclear. reflexivity.
Qed.

Lemma clear_command_keeps_session_witness :
  lower (strip (u "  /Clear ")) = u "/clear" /\
  fst (fst (main_step rich (replying (u "hi"))
                      (session_after rich five_turns) (u "  /Clear ")))
  = session_after rich five_turns.
Proof.
  split; [reflexivity|].
  now rewrite (clear_command_keeps_session
                 rich (replying (u "hi")) (session_after rich five_turns)
                 (u "  /Clear ") eq_refl).
Defined.

(** C1: [/clear] after a turn: the history still holds the turn.  The
    banner and the help of the program announce that [/clear] resets the
    conversation. *)
Theorem clear_after_a_turn_keeps_history (console : Console) :
  conversation_history
    (session_after console [(u "hi", replying (u "hello"));
                            (u "/clear", replying (u "hello"))])
  = [user_turn (u "hi"); {| role := assistant; content := u "hello" |}].
Proof. reflexivity. Qed.

End Session.

(** * Further properties of chat.py *)

(** ** The prompt and the display helpers *)

Section Helpers.

(** X1: the prompt starts with the user's text as it is, and prompts of
    different texts differ: the text can be read back from the prompt. *)
Theorem prompt_keeps_user_input (a b : str) :
  (exists template,
     template <> [] /\
     forall user_input,
       create_reasoning_prompt user_input = user_input ++ template) /\
  (create_reasoning_prompt a = create_reasoning_prompt b -> a = b).
Proof.
  split.
  - eexists. split; [|intros user_input; reflexivity]. discriminate.
  - unfold create_reasoning_prompt. apply app_inv_tail.
Qed.

Lemma times_char (maxsize : Z) (c : char) (n : Z) :
  (0 <= n <= maxsize)%Z ->
  times maxsize [c] n = inr (repeat c (Z.to_nat n)).
Proof.
  intros [H0 Hmax]. unfold times.
  destruct (Z.ltb_spec n (- maxsize - 1)) as [Ha|Ha]; [lia|].
  destruct (Z.ltb_spec maxsize n) as [Hb|Hb]; [lia|]. simpl orb.
  destruct (Z.ltb_spec n 1) as [Hc|Hc].
  - now replace n with 0%Z by lia.
  - assert (0 < maxsize / n)%Z as Hd by (apply Z.div_str_pos; lia).
    simpl List.length.
    destruct (Z.ltb_spec (maxsize / n) (Z.of_nat 1)) as [He|He]; [lia|].
    f_equal. induction (Z.to_nat n) as [|k IH]; simpl; [reflexivity|].
    now rewrite IH.
Qed.



Lemma join_map_ext {A : Type} (f g : A -> str) (sep : str) (l : list A) :
  (forall x, f x = g x) -> join sep (map f l) = join sep (map g l).
Proof.
  intros H. induction l as [|x l IH]; [reflexivity|].
  simpl. rewrite H. destruct l as [|y l]; [reflexivity|].
  simpl in IH |- *. now rewrite IH.
Qed.

(** X3: [format_thinking] shows the thoughts trimmed: white space around a
    thought never reaches the display, so the thoughts as
    [extract_think_content] returns them and the same thoughts trimmed are
    displayed alike. *)
Theorem format_thinking_trims (thoughts : list str) :
  format_thinking (map strip thoughts) = format_thinking thoughts.
Proof.
  unfold format_thinking. rewrite map_map.
  apply join_map_ext. intros thought. now rewrite strip_idem.
Qed.

(** X4: [format_thinking] gives the empty text for no thought only: any
    thought, even an empty one, is displayed with its marker. *)
Theorem format_thinking_empty_iff (thoughts : list str) :
  format_thinking thoughts = [] <-> thoughts = [].
Proof.
  split; [|intros ->; reflexivity].
  destruct thoughts as [|t rest]; [reflexivity|].
  unfold format_thinking. simpl map.
  destruct (map _ rest); discriminate.
Qed.

End Helpers.

(** ** More on the parser *)

Section ParserMore.

Ltac short_run y :=
  repeat (destruct y as [|? y];
          [ rewrite !drop_prefix_none;
            [ reflexivity
            | intros r; unfold think_close; simpl; discriminate .. ]
          | ]).

(** No closing marker straddles the start of a closing marker. *)
Lemma close_before_close (c : char) (y rest : str) :
  drop_prefix think_close ((c :: y) ++ think_close ++ rest) =
  option_map (fun r => r ++ think_close ++ rest)
             (drop_prefix think_close (c :: y)).
Proof.
  destruct (Nat.le_gt_cases (List.length think_close) (List.length (c :: y)))
    as [H|H].
  - now apply drop_prefix_long.
  - revert H. short_run y. simpl. intros H. lia.
Qed.

(** The lazy group runs up to the first closing marker. *)
Lemma lazy_until_first_close (inner rest : str) :
  contains think_close inner = false ->
  lazy_until think_close (inner ++ think_close ++ rest) = Some (inner, rest).
Proof.
  induction inner as [|c inner IH]; intros H.
  - assert (drop_prefix think_close (think_close ++ rest) = Some rest) as E
      by now apply drop_prefix_app.
    change ([] ++ think_close ++ rest) with (think_close ++ rest).
    unfold think_close at 2. simpl u. simpl app. rewrite lazy_until_cons.
    change (60%N :: 47%N :: 116%N :: 104%N :: 105%N :: 110%N :: 107%N
              :: 62%N :: rest) with (think_close ++ rest).
    now rewrite E.
  - rewrite contains_cons in H.
    destruct (drop_prefix think_close (c :: inner)) eqn:E; [discriminate|].
    change ((c :: inner) ++ think_close ++ rest)
      with (c :: inner ++ think_close ++ rest).
    rewrite lazy_until_cons.
    change (c :: inner ++ think_close ++ rest)
      with ((c :: inner) ++ think_close ++ rest).
    rewrite close_before_close, E. simpl option_map.
    now rewrite (IH H).
Qed.

Lemma search_match_at (text group rest : str) :
  match_at text = Some (group, rest) -> search text = Some ([], group, rest).
Proof.
  intros H. destruct text as [|c t]; [discriminate H|].
  rewrite search_cons. now rewrite H.
Qed.

(** The leftmost span: what precedes it holds no opening marker. *)
Lemma search_first_span (gap inner rest : str) :
  contains think_open gap = false ->
  contains think_close inner = false ->
  search (gap ++ think_open ++ inner ++ think_close ++ rest)
  = Some (gap, inner, rest).
Proof.
  intros Hgap Hinner. induction gap as [|c gap IH].
  - apply search_match_at. unfold match_at.
    assert (drop_prefix think_open
              (think_open ++ inner ++ think_close ++ rest)
            = Some (inner ++ think_close ++ rest)) as E
      by now apply drop_prefix_app.
    change ([] ++ think_open ++ inner ++ think_close ++ rest)
      with (think_open ++ inner ++ think_close ++ rest).
    rewrite E. now apply lazy_until_first_close.
  - rewrite contains_cons in Hgap.
    destruct (drop_prefix think_open (c :: gap)) eqn:E; [discriminate|].
    change ((c :: gap) ++ think_open ++ inner ++ think_close ++ rest)
      with (c :: gap ++ think_open ++ inner ++ think_close ++ rest).
    rewrite search_cons.
    change (c :: gap ++ think_open ++ inner ++ think_close ++ rest)
      with (extend (inner ++ think_close ++ rest) (c :: gap)).
    unfold match_at. rewrite open_boundary, E. simpl option_map.
    unfold extend. now rewrite (IH Hgap).
Qed.

(** X5: a well-formed first span is taken out: when the text before the
    first opening marker holds no opening marker and the content up to the
    closing marker holds no closing marker, that content is the first
    thought, the rest is parsed in the same way, and the answer is the text
    before the span joined to what is left of the rest, trimmed. *)
Theorem first_span_is_extracted (gap inner rest : str)
  (Hgap : contains think_open gap = false)
  (Hinner : contains think_close inner = false) :
  extract_think_content (gap ++ think_open ++ inner ++ think_close ++ rest)
  = (inner :: findall rest, strip (gap ++ sub [] rest)).
Proof.
  unfold extract_think_content, findall, sub.
  rewrite finditer_unfold, (search_first_span _ _ _ Hgap Hinner).
  destruct (finditer (List.length rest) rest) as [spans tail]. simpl.
  now rewrite app_nil_r, app_assoc.
Qed.

Lemma first_span_is_extracted_witness :
  contains think_open [] = false /\
  contains think_close (u "step one") = false /\
  extract_think_content (u "<think>step one</think>Answer: 42")
  = ([u "step one"], u "Answer: 42").
Proof.
  split; [reflexivity|]. split; [reflexivity|].
  exact (first_span_is_extracted [] (u "step one") (u "Answer: 42")
           eq_refl eq_refl).
Defined.

Lemma lstrip_length (s : str) : List.length (lstrip s) <= List.length s.
Proof.
  induction s as [|c t IH]; simpl; [lia|].
  destruct (isspace c); simpl; lia.
Qed.

Lemma strip_length (s : str) : List.length (strip s) <= List.length s.
Proof.
  unfold strip, rstrip. rewrite length_rev.
  etransitivity; [apply lstrip_length|]. rewrite length_rev.
  apply lstrip_length.
Qed.

Lemma rebuild_length (spans : list (str * str)) (tail : str) :
  List.length (rebuild spans tail) =
  List.length (untagged spans tail)
  + list_sum (map (@List.length char) (map snd spans))
  + 15 * List.length spans.
Proof.
  unfold untagged. induction spans as [|[gap inner] spans IH].
  - simpl. lia.
  - cbn [rebuild]. rewrite !length_app, IH.
    cbn [map fst snd concat list_sum List.length]. rewrite !length_app.
    unfold think_open, think_close. simpl. lia.
Qed.

(** X6: the parser makes up no text: the answer, the thoughts and the
    fifteen characters of markers around each thought together are no
    longer than the raw text. *)
Theorem parse_accounts_for_length (text : str) :
  List.length (snd (extract_think_content text))
  + list_sum (map (@List.length char) (fst (extract_think_content text)))
  + 15 * List.length (fst (extract_think_content text))
  <= List.length text.
Proof.
  pose proof (finditer_layout text) as H.
  unfold extract_think_content, findall, sub. simpl.
  destruct (finditer (List.length text) text) as [spans tail].
  destruct H as (H & _). simpl.
  apply (f_equal (@List.length char)) in H.
  rewrite H, rebuild_length, length_map.
  assert (concat (map (fun span => fst span ++ []) spans) ++ tail
          = untagged spans tail) as ->.
  { unfold untagged. f_equal. clear.
    induction spans as [|[gap inner] spans IH]; simpl; [reflexivity|].
    now rewrite IH, app_nil_r. }
  pose proof (strip_length (untagged spans tail)). lia.
Qed.

Lemma lstrip_fixed_head (c : char) (t : str) :
  lstrip (c :: t) = c :: t -> isspace c = false.
Proof.
  simpl. destruct (isspace c); [|reflexivity].
  intros H. pose proof (lstrip_length t) as Hl. rewrite H in Hl.
  simpl in Hl. lia.
Qed.

(** X7: the answer neither starts nor ends with white space, whatever the
    raw text. *)
Theorem answer_is_trimmed (text : str) :
  (forall c t, snd (extract_think_content text) = c :: t ->
               isspace c = false) /\
  (forall t c, snd (extract_think_content text) = t ++ [c] ->
               isspace c = false).
Proof.
  unfold extract_think_content. simpl.
  set (s := sub [] text). split.
  - intros c t H. apply (lstrip_fixed_head c t).
    rewrite <- H. apply lstrip_rstrip_lstrip.
  - intros t c H. apply (lstrip_fixed_head c (rev t)).
    assert (rstrip (strip s) = strip s) as Hr by apply rstrip_idem.
    unfold rstrip at 1 in Hr. rewrite H in Hr.
    rewrite rev_app_distr in Hr. simpl in Hr.
    apply (f_equal (@rev char)) in Hr.
    rewrite rev_involutive, rev_app_distr in Hr. exact Hr.
Qed.

End ParserMore.

(** ** The layout of a text in spans *)

Section Layout.

Lemma lazy_until_eq (close text : str) :
  lazy_until close text =
  match drop_prefix close text with
  | Some rest => Some ([], rest)
  | None => match text with
            | [] => None
            | c :: text' =>
                match lazy_until close text' with
                | Some (group, rest) => Some (c :: group, rest)
                | None => None
                end
            end
  end.
Proof. now destruct text. Qed.

(** Where a closing marker stands, the lazy group finds one. *)
Lemma lazy_until_finds (close a b : str) :
  lazy_until close (a ++ close ++ b) <> None.
Proof.
  induction a as [|c a IH]; rewrite lazy_until_eq.
  - assert (drop_prefix close ([] ++ close ++ b) = Some b) as ->
      by now apply drop_prefix_app.
    discriminate.
  - destruct (drop_prefix close ((c :: a) ++ close ++ b)); [discriminate|].
    simpl app. cbv iota.
    destruct (lazy_until close (a ++ close ++ b)) as [[g r]|];
      [discriminate | exact IH].
Qed.

(** The leftmost match: no opening marker stands before it. *)
Lemma search_gap (text before group rest : str) :
  search text = Some (before, group, rest) ->
  contains think_open before = false.
Proof.
  revert before. induction text as [|c t IH]; intros before.
  - intros H. discriminate H.
  - rewrite search_cons.
    destruct (match_at (c :: t)) as [[g r]|] eqn:Em.
    + intros H. inversion H; subst. reflexivity.
    + destruct (search t) as [[[b g] r]|] eqn:Es; [|discriminate].
      intros H. inversion H; subst.
      rewrite contains_cons.
      destruct (drop_prefix think_open (c :: b)) as [x|] eqn:E;
        [|now apply IH].
      exfalso.
      apply drop_prefix_app in E. apply search_app in Es.
      unfold match_at in Em.
      assert (drop_prefix think_open (c :: t)
              = Some (x ++ think_open ++ group ++ think_close ++ rest))
        as Ed.
      { apply drop_prefix_app. rewrite Es.
        change (c :: b ++ think_open ++ group ++ think_close ++ rest)
          with ((c :: b) ++ think_open ++ group ++ think_close ++ rest).
        rewrite E, <- app_assoc. reflexivity. }
      rewrite Ed in Em.
      apply (lazy_until_finds think_close (x ++ think_open ++ group) rest).
      rewrite <- !app_assoc. exact Em.
Qed.

(** The scan lays the text out well. *)
Lemma finditer_well_laid (text : str) :
  text = rebuild (fst (finditer (List.length text) text))
                 (snd (finditer (List.length text) text)) /\
  well_laid (fst (finditer (List.length text) text))
            (snd (finditer (List.length text) text)).
Proof.
  remember (List.length text) as n eqn:En. revert text En.
  induction n as [n IH] using (well_founded_induction lt_wf).
  intros text ->. rewrite finditer_unfold.
  destruct (search text) as [[[b g] r]|] eqn:Es.
  - pose proof (search_shorter _ _ _ _ Es) as Hr.
    assert (List.length r < List.length text) as Hlt by lia.
    specialize (IH _ Hlt r eq_refl).
    destruct (finditer (List.length r) r) as [spans tail].
    destruct IH as (Hr1 & Hr2 & Hr3). simpl in *.
    split; [|split].
    + rewrite <- Hr1. now apply search_app.
    + constructor; [|exact Hr2]. simpl. split.
      * eapply search_gap; eassumption.
      * eapply search_shortest; eassumption.
    + exact Hr3.
  - simpl. split; [reflexivity|]. split; [constructor | exact Es].
Qed.

(** A text that is well laid out is scanned into that layout. *)
Lemma finditer_rebuild (spans : list (str * str)) (tail : str) :
  well_laid spans tail ->
  finditer (List.length (rebuild spans tail)) (rebuild spans tail)
  = (spans, tail).
Proof.
  intros [Hspans Htail].
  induction Hspans as [|[gap inner] spans [Hgap Hinner] Hspans IH].
  - rewrite finditer_unfold. simpl rebuild. now rewrite Htail.
  - rewrite finditer_unfold. cbn [rebuild].
    simpl in Hgap, Hinner.
    rewrite (search_first_span _ _ _ Hgap Hinner).
    now rewrite IH.
Qed.

Lemma untagged_sub (spans : list (str * str)) (tail : str) :
  concat (map (fun span => fst span ++ []) spans) ++ tail
  = untagged spans tail.
Proof.
  unfold untagged. f_equal.
  induction spans as [|[gap inner] spans IH]; simpl; [reflexivity|].
  now rewrite IH, app_nil_r.
Qed.

(** C2, as amended: for every raw text, the thinking sequence returned by
    [extract_think_content] holds the inner content of the matched
    [<think>...</think>] spans exactly as it stands in the text, not
    trimmed, one element per span and in the order of the text.  The
    matched spans are those of the one layout of the text in which no
    opening marker stands before a span, no closing marker inside it, and
    no span in what follows the last one; the answer is the trimmed text
    outside the spans. *)
Theorem thinking_is_verbatim_inner_content (text : str) :
  (exists spans tail,
     text = rebuild spans tail /\
     well_laid spans tail /\
     fst (extract_think_content text) = map snd spans /\
     snd (extract_think_content text) = strip (untagged spans tail)) /\
  (forall spans tail,
     text = rebuild spans tail ->
     well_laid spans tail ->
     extract_think_content text
     = (map snd spans, strip (untagged spans tail))).
Proof.
  split.
  - destruct (finditer_well_laid text) as [H1 H2].
    exists (fst (finditer (List.length text) text)),
           (snd (finditer (List.length text) text)).
    split; [exact H1|]. split; [exact H2|].
    unfold extract_think_content, findall, sub. simpl.
    destruct (finditer (List.length text) text) as [spans tail]. simpl.
    split; [reflexivity|]. now rewrite untagged_sub.
  - intros spans tail -> Hlaid.
    unfold extract_think_content, findall, sub.
    rewrite (finditer_rebuild _ _ Hlaid). simpl.
    now rewrite untagged_sub.
Qed.

End Layout.

(** ** More on the session *)

Section SessionMore.

Lemma fold_left_chunks (delta_contents : list (option str)) (acc : str) :
  fold_left (fun full_response d => full_response ++ or_empty d)
            delta_contents acc
  = acc ++ concat (map or_empty delta_contents).
Proof.
  revert acc. induction delta_contents as [|d ds IH]; intros acc; simpl.
  - now rewrite app_nil_r.
  - now rewrite IH, app_assoc.
Qed.

Lemma chat_ends_with_reply (console : Console) (create : Create)
  (self : GroqChat)
  (user_input full_response : str) :
  try_block create self user_input = inr (Some full_response) ->
  conversation_history (session (chat console create self user_input)) =
  last_n 8 (conversation_history self) ++
  [user_turn user_input; {| role := assistant; content := full_response |}].
Proof.
  intros H. rewrite (chat_replied _ _ _ _ _ H). simpl.
  set (reply := {| role := assistant; content := full_response |}).
  change [user_turn user_input; reply]
    with ([user_turn user_input] ++ [reply]).
  rewrite app_assoc, last_n_snoc, last_n_snoc, <- app_assoc. reflexivity.
Qed.

(** X8: with a streaming configuration the reply is the chunks put
    together in their order, a chunk without content counting for nothing:
    it is parsed and stored as the one text, so a tag cut by a chunk
    boundary is still a tag. *)
Theorem streamed_reply_is_concatenated (console : Console) (create : Create)
  (self : GroqChat)
  (user_input : str) (delta_contents : list (option str))
  (Hstream : stream (config self) = true)
  (Hchunks : create (chat_request self user_input)
             = inr (ChunkStream delta_contents)) :
  outcome (chat console create self user_input) =
    inr (extract_think_content (concat (map or_empty delta_contents))) /\
  exists earlier,
    conversation_history (session (chat console create self user_input)) =
    earlier ++ [{| role := assistant;
                   content := concat (map or_empty delta_contents) |}].
Proof.
  assert (try_block create self user_input
          = inr (Some (concat (map or_empty delta_contents)))) as H.
  { unfold try_block. rewrite Hchunks, Hstream. simpl.
    now rewrite fold_left_chunks. }
  split.
  - now rewrite (chat_replied _ _ _ _ _ H).
  - rewrite (chat_ends_with_reply _ _ _ _ _ H).
    exists (last_n 8 (conversation_history self) ++ [user_turn user_input]).
    now rewrite <- app_assoc.
Qed.

Lemma streamed_reply_is_concatenated_witness :
  stream (config init_streaming) = true /\
  outcome (chat rich (streaming [Some (u "<thi"); None; Some (u "nk>a</think>b")])
                init_streaming (u "q"))
  = inr ([u "a"], u "b").
Proof.
  split; [reflexivity|].
  exact (proj1 (streamed_reply_is_concatenated
                  rich
                  (streaming [Some (u "<thi"); None; Some (u "nk>a</think>b")])
                  init_streaming (u "q")
                  [Some (u "<thi"); None; Some (u "nk>a</think>b")]
                  eq_refl eq_refl)).
Defined.

Lemma chat_keeps_config (console : Console) (create : Create) (self : GroqChat)
  (user_input : str) :
  config (session (chat console create self user_input)) = config self.
Proof.
  destruct (try_block create self user_input) as [e|[full_response|]] eqn:H.
  - now rewrite (chat_raised _ _ _ _ _ H).
  - now rewrite (chat_replied _ _ _ _ _ H).
  - unfold chat. now rewrite H.
Qed.

(** X9: every call of [chat], however it ends, leaves the formatted user
    turn in the history, and leaves the configuration as it was. *)
Theorem chat_always_records_user_turn (console : Console) (create : Create)
  (self : GroqChat)
  (user_input : str) :
  In (user_turn user_input)
     (conversation_history (session (chat console create self user_input))) /\
  config (session (chat console create self user_input)) = config self.
Proof.
  split; [|apply chat_keeps_config].
  destruct (try_block create self user_input) as [e|[full_response|]] eqn:H.
  - rewrite (chat_raised _ _ _ _ _ H). simpl.
    apply in_or_app. right. now left.
  - rewrite (chat_ends_with_reply _ _ _ _ _ H).
    apply in_or_app. right. now left.
  - unfold chat. rewrite H. simpl.
    apply in_or_app. right. now left.
Qed.

Lemma paired_app (a b : list Message) :
  paired a = true -> paired b = true -> paired (a ++ b) = true.
Proof.
  revert a.
  enough (forall n a, List.length a <= n -> paired a = true ->
                      paired b = true -> paired (a ++ b) = true) as H
    by (intros a; now apply (H (List.length a))).
  induction n as [|n IH]; intros a Hlen Ha Hb.
  - destruct a; [exact Hb | simpl in Hlen; lia].
  - destruct a as [|x [|y a]]; [exact Hb | discriminate Ha |].
    simpl in Ha |- *. destruct (role x), (role y); try discriminate Ha.
    apply IH; [simpl in Hlen; lia | exact Ha | exact Hb].
Qed.

Lemma paired_skipn (k : nat) (h : list Message) :
  paired h = true -> paired (skipn (2 * k) h) = true.
Proof.
  revert h. induction k as [|k IH]; intros h H; [exact H|].
  replace (2 * S k) with (S (S (2 * k))) by lia.
  destruct h as [|x [|y h]]; [reflexivity | discriminate H |].
  simpl in H. destruct (role x), (role y); try discriminate H.
  simpl skipn. now apply IH.
Qed.

Lemma paired_even (h : list Message) :
  paired h = true -> exists k, List.length h = 2 * k.
Proof.
  enough (forall n h, List.length h <= n -> paired h = true ->
                      exists k, List.length h = 2 * k) as H
    by (now apply (H (List.length h))).
  clear h. induction n as [|n IH]; intros h Hlen H.
  - destruct h; [now exists 0 | simpl in Hlen; lia].
  - destruct h as [|x [|y h]]; [now exists 0 | discriminate H |].
    simpl in H. destruct (role x), (role y); try discriminate H.
    destruct (IH h) as [k Hk]; [simpl in Hlen; lia | exact H |].
    exists (S k). simpl. lia.
Qed.

(** X10: a call of [chat] that gets a reply keeps the history made of
    whole turns: the cut to the last ten messages drops whole turns only,
    never the user message of a turn without its answer. *)
Theorem replied_chat_keeps_turns_whole (console : Console) (create : Create)
  (self : GroqChat)
  (user_input full_response : str)
  (Hpaired : paired (conversation_history self) = true)
  (Hok : try_block create self user_input = inr (Some full_response)) :
  paired (conversation_history (session (chat console create self user_input)))
  = true.
Proof.
  rewrite (chat_ends_with_reply _ _ _ _ _ Hok).
  apply paired_app; [|reflexivity].
  destruct (paired_even _ Hpaired) as [k Hk].
  unfold last_n. rewrite Hk.
  replace (2 * k - 8) with (2 * (k - 4)) by lia.
  now apply paired_skipn.
Qed.

Lemma replied_chat_keeps_turns_whole_witness :
  paired (conversation_history (session_after rich five_turns)) = true /\
  paired (conversation_history
            (session (chat rich (replying (u "hi")) (session_after rich five_turns)
                           (u "more")))) = true.
Proof.
  split; [reflexivity|].
  exact (replied_chat_keeps_turns_whole
           rich
           (replying (u "hi")) (session_after rich five_turns) (u "more") (u "hi")
           eq_refl eq_refl).
Defined.

End SessionMore.

(** ** The loop of main *)

Section Loop.

Lemma eqb_neq (a b : str) : a <> b -> Text.eqb a b = false.
Proof.
  intros H. destruct (Text.eqb a b) eqn:E; [|reflexivity].
  apply eqb_eq in E. contradiction.
Qed.

Lemma eqb_refl (a : str) : Text.eqb a a = true.
Proof. now apply eqb_eq. Qed.

Lemma close_error_plain (styles : Rich.Styles) (name : str) :
  Rich.close_error styles
    {| Rich.tag_name := name; Rich.tag_parameters := None |} = None.
Proof.
  unfold Rich.close_error. cbn [Rich.tag_name Rich.tag_parameters].
  now destruct (drop_prefix (u "@") name).
Qed.

(** The console renders the panel that shows the [TypeError], whatever
    the styles are. *)
Lemma type_error_panel_renders (styles : Rich.Styles) :
  Rich.render_error styles (error_markup TypeError) = None.
Proof.
  unfold Rich.render_error.
  replace (contains (u "[") (error_markup TypeError)) with true
    by (vm_compute; reflexivity).
  replace (Rich.parse (error_markup TypeError))
    with [(0, {| Rich.tag_name := u "error"; Rich.tag_parameters := None |});
          (78, {| Rich.tag_name := u "/"; Rich.tag_parameters := None |})]
    by (vm_compute; reflexivity).
  cbn [Rich.render_tags].
  replace (drop_prefix (u "/") (Rich.tag_name
             {| Rich.tag_name := u "error"; Rich.tag_parameters := None |}))
    with (@None str) by reflexivity.
  replace (drop_prefix (u "/") (Rich.tag_name
             {| Rich.tag_name := u "/"; Rich.tag_parameters := None |}))
    with (Some (@nil char)) by reflexivity.
  replace (strip []) with (@nil char) by reflexivity.
  cbn [Rich.tag_parameters Rich.tag_name].
  now rewrite close_error_plain.
Qed.

(** X11: a reply whose content is [None] costs only its turn: [chat]
    raises after the user turn was recorded, [main] shows the error and
    goes on with the loop. *)
Theorem reply_without_content_is_survived (styles : Rich.Styles)
  (create : Create) (chat_ : GroqChat) (line : str)
  (Hquit : lower (strip line) <> u "quit")
  (Hclear : lower (strip line) <> u "/clear")
  (Hhelp : lower (strip line) <> u "/help")
  (Hwhole : stream (config chat_) = false)
  (Hnone : create (chat_request chat_ (strip line))
           = inr (ChatCompletion None)) :
  outcome (chat (Rich.render_error styles) create chat_ (strip line))
    = inl TypeError /\
  main_step (Rich.render_error styles) create chat_ line =
  (set_history chat_
     (conversation_history chat_ ++ [user_turn (strip line)]),
   [Newline; Newline; ErrorPanel TypeError],
   Continue).
Proof.
  assert (try_block create chat_ (strip line) = inr None) as H
    by (unfold try_block; now rewrite Hnone, Hwhole).
  assert (chat (Rich.render_error styles) create chat_ (strip line) =
          {| session := set_history chat_
                          (conversation_history chat_
                           ++ [user_turn (strip line)]);
             printed := [];
             outcome := inl TypeError |}) as Hc
    by (unfold chat; now rewrite H).
  split; [now rewrite Hc|].
  unfold main_step.
  rewrite (eqb_neq _ _ Hquit), (eqb_neq _ _ Hclear), (eqb_neq _ _ Hhelp).
  rewrite Hc. cbn [outcome session printed]. unfold handle.
  now rewrite type_error_panel_renders.
Qed.

Lemma reply_without_content_is_survived_witness :
  outcome (chat rich silent init (strip (u " hi "))) = inl TypeError /\
  snd (main_step rich silent init (u " hi ")) = Continue.
Proof.
  destruct (reply_without_content_is_survived Rich.plain_styles silent init
              (u " hi "))
    as [H1 H2]; try reflexivity; try (vm_compute; discriminate).
  split; [exact H1 | unfold rich; now rewrite H2].
Defined.


(** With the console of the program, a thought that holds a closing tag
    ends the loop: the panel of the thoughts is rejected, and so is the
    panel that shows that error, whose text quotes the tag. *)
Example thought_with_closing_tag_ends_loop :
  main_step rich (replying (u "<think>use [/] to close</think>ok")) init
            (u "hi")
  = (session (chat rich (replying (u "<think>use [/] to close</think>ok"))
                   init (u "hi")),
     [Newline; Newline],
     Abort (MarkupError
              (u "closing tag '[/]' at position 79 has nothing to close"))).
Proof. vm_compute. reflexivity. Qed.

(** X13: the three commands leave the session as it is and never call
    the remote service: the round is the same whatever the service would
    do. *)
Theorem commands_leave_session_alone (console : Console)
  (create create' : Create) (chat_ : GroqChat) (line : str)
  (Hcommand : In (lower (strip line)) [u "quit"; u "/clear"; u "/help"]) :
  fst (fst (main_step console create chat_ line)) = chat_ /\
  main_step console create chat_ line = main_step console create' chat_ line.
Proof.
  unfold main_step.
  destruct Hcommand as [H|[H|[H|[]]]]; rewrite <- H; split; reflexivity.
Qed.

Lemma commands_leave_session_alone_witness :
  In (lower (strip (u " /HELP"))) [u "quit"; u "/clear"; u "/help"] /\
  fst (fst (main_step rich (raising timed_out)
                      (session_after rich five_turns) (u " /HELP")))
  = session_after rich five_turns.
Proof.
  assert (In (lower (strip (u " /HELP"))) [u "quit"; u "/clear"; u "/help"])
    as Hcommand by (right; right; left; reflexivity).
  split; [exact Hcommand|].
  exact (proj1 (commands_leave_session_alone
                  rich (raising timed_out) (replying [])
                  (session_after rich five_turns) (u " /HELP") Hcommand)).
Defined.

(** X14: white space around the line that was typed never matters: the
    round is that of the trimmed line, and it is the trimmed text that is
    sent and recorded. *)
Theorem round_ignores_surrounding_space (console : Console)
  (create : Create) (chat_ : GroqChat) (line : str) :
  main_step console create chat_ (strip line)
  = main_step console create chat_ line.
Proof.
  unfold main_step. now rewrite strip_idem.
Qed.

(** X15: nothing that follows [quit] in the input is read. *)
Theorem nothing_is_read_after_quit (console : Console) (chat_ : GroqChat)
  (before after : list (str * Create)) (line : str) (create : Create)
  (Hquit : lower (strip line) = u "quit") :
  main_loop console chat_ (before ++ (line, create) :: after) =
  main_loop console chat_ (before ++ [(line, create)]).
Proof.
  revert chat_. induction before as [|[l c] before IH]; intros chat_.
  - simpl. unfold main_step. rewrite Hquit. reflexivity.
  - simpl. destruct (main_step console c chat_ l) as [[chat' events] [| |e]].
    + now rewrite IH.
    + reflexivity.
    + reflexivity.
Qed.

Lemma nothing_is_read_after_quit_witness :
  lower (strip (u "Quit")) = u "quit" /\
  main_loop rich init [(u "hi", replying (u "hello"));
                       (u "Quit", replying (u "bye"));
                       (u "again", replying (u "hello"))]
  = main_loop rich init [(u "hi", replying (u "hello"));
                         (u "Quit", replying (u "bye"))].
Proof.
  split; [reflexivity|].
  exact (nothing_is_read_after_quit rich init
           [(u "hi", replying (u "hello"))]
           [(u "again", replying (u "hello"))]
           (u "Quit") (replying (u "bye")) eq_refl).
Defined.

Lemma main_step_config (console : Console) (create : Create)
  (chat_ : GroqChat) (line : str) :
  config (fst (fst (main_step console create chat_ line))) = config chat_.
Proof.
  unfold main_step.
  destruct (Text.eqb (lower (strip line)) (u "quit")); [reflexivity|].
  destruct (Text.eqb (lower (strip line)) (u "/clear")); [reflexivity|].
  destruct (Text.eqb (lower (strip line)) (u "/help")); [reflexivity|].
  pose proof (chat_keeps_config console create chat_ (strip line)) as H.
  destruct (outcome (chat console create chat_ (strip line)))
    as [e|[[|t th] resp]]; try exact H.
  now destruct (console (format_thinking (t :: th))).
Qed.

Lemma main_loop_config (console : Console) (chat_ : GroqChat)
  (inputs : list (str * Create)) :
  config (fst (main_loop console chat_ inputs)) = config chat_.
Proof.
  revert chat_. induction inputs as [|[line create] rest IH]; intros chat_.
  - reflexivity.
  - simpl. pose proof (main_step_config console create chat_ line) as H.
    destruct (main_step console create chat_ line)
      as [[chat' events] [| |e]]; try exact H.
    specialize (IH chat'). destruct (main_loop console chat' rest) as [c ev].
    simpl in *. congruence.
Qed.

(** X16: the configuration never changes during a run of [main]: every
    request is made with temperature 0.6, 4096 tokens at most, top_p 0.95,
    and without streaming, so that the streaming branch of [chat] is never
    taken by the program. *)
Theorem main_never_changes_config (console : Console)
  (inputs : list (str * Create)) :
  config (session_after console inputs) = config init /\
  stream (config (session_after console inputs)) = false.
Proof.
  assert (config (session_after console inputs) = config init) as H.
  { unfold session_after, main.
    pose proof (main_loop_config console init inputs) as H.
    now destruct (main_loop console init inputs). }
  split; [exact H | now rewrite H].
Qed.

End Loop.
